(** * facefusion-libero: the update script [update.js]

    [update.js] exports one arrow function.  Its body builds an object
    literal [config] whose only property [run] is an array of three step
    objects, and returns it.  The host (a script runner) calls the function
    and executes the steps.

    The development has three parts:
    - a small model of the part of the JavaScript runtime the script
      touches: values, a heap of objects and arrays with identity, the
      host's observable effects, and a state-and-exception monad;
    - the script itself, written with the literals of the source;
    - the properties of the value the script returns and of its effects. *)

From stdpp Require Import gmap strings list fin_maps.

Open Scope string_scope.

(** ** Runtime model *)

(** Objects and arrays live in the heap and are handled through references;
    two literals evaluated at different times are different objects. *)
Abbreviation loc := positive.

Inductive val :=
  | VUndefined
  | VNull
  | VString (s : string)
  | VRef (l : loc).

(** A heap cell.  The properties of an object are kept in insertion order,
    as JavaScript keeps string keys. *)
Inductive cell :=
  | Object (props : list (string * val))
  | Array (items : list val).

(** What the host can observe of a program besides its result. *)
Inductive event :=
  | Spawn (command : string)
  | FileAccess (path : string)
  | NetAccess (address : string).

Record world := World {
  heap : gmap loc cell;
  events : list event
}.

Inductive outcome (A : Type) :=
  | Normal (a : A) (w : world)
  | Thrown (exn : val) (w : world).
Arguments Normal {A} a w.
Arguments Thrown {A} exn w.

Definition JS (A : Type) : Type := world → outcome A.

#[global] Instance JS_ret : MRet JS := λ A a w, Normal a w.

#[global] Instance JS_bind : MBind JS := λ A B k m w,
  match m w with
  | Normal a w' => k a w'
  | Thrown exn w' => Thrown exn w'
  end.

(** [throw exn], and a call into the host that the host can observe.  They
    are what a script could do besides building values; [update.js] does
    neither. *)
Definition throw {A} (exn : val) : JS A := λ w, Thrown exn w.

Definition perform (e : event) : JS unit := λ w,
  Normal () {| heap := heap w; events := events w ++ [e] |}.

(** Allocation picks an address the heap does not use yet. *)
Definition alloc (c : cell) : JS loc := λ w,
  let l := fresh (dom (heap w)) in
  Normal l {| heap := <[l := c]> (heap w); events := events w |}.

(** Defining a property: a key the object already has keeps its place and
    takes the new value, a new key goes last. *)
Fixpoint define_prop (k : string) (v : val) (props : list (string * val))
    : list (string * val) :=
  match props with
  | [] => [(k, v)]
  | (k', v') :: props' =>
      if decide (k' = k) then (k, v) :: props'
      else (k', v') :: define_prop k v props'
  end.

(** Evaluates the property definitions of an object literal from left to
    right, defining each on the properties gathered so far. *)
Fixpoint eval_props (defs : list (string * JS val)) (props : list (string * val))
    : JS (list (string * val)) :=
  match defs with
  | [] => mret props
  | (k, e) :: defs' =>
      v ← e;
      eval_props defs' (define_prop k v props)
  end.

(** Evaluates the elements of an array literal from left to right. *)
Fixpoint eval_items (es : list (JS val)) : JS (list val) :=
  match es with
  | [] => mret []
  | e :: es' =>
      v ← e;
      items ← eval_items es';
      mret (v :: items)
  end.

(** [{ k1: e1, ..., kn: en }]: the property values are evaluated in order and
    the object takes its address once they are known.  (JavaScript creates
    the object before it evaluates them; the expressions of a literal
    cannot reach the object they are part of, so only the numbering of the
    addresses differs.) *)
Definition object_literal (defs : list (string * JS val)) : JS val :=
  props ← eval_props defs [];
  l ← alloc (Object props);
  mret (VRef l).

(** [[ e1, ..., en ]] *)
Definition array_literal (es : list (JS val)) : JS val :=
  items ← eval_items es;
  l ← alloc (Array items);
  mret (VRef l).

(** ['...'] *)
Definition string_literal (s : string) : JS val := mret (VString s).

(** ** The script *)

(** [module.exports = () => { const config = { run: [ ... ] }; return config; }]

    The arrow function declares no parameter; JavaScript lets a caller pass
    arguments all the same, and the body never reads them. *)
Definition module_exports (arguments : list val) : JS val :=
  config ← object_literal
    [ ("run", array_literal
        [ object_literal
            [ ("method", string_literal "shell.run");
              ("params", object_literal
                [ ("message", string_literal "git pull") ]) ];
          object_literal
            [ ("method", string_literal "shell.run");
              ("params", object_literal
                [ ("message", string_literal "git pull --tags");
                  ("path", string_literal "facefusion") ]) ];
          object_literal
            [ ("method", string_literal "shell.run");
              ("params", object_literal
                [ ("message", string_literal "git checkout 2.5.3");
                  ("path", string_literal "facefusion") ]) ] ]) ];
  mret config.

(** ** Reading a result back *)

#[local] Unset Elimination Schemes.

(** The structure of a value once every reference is followed: what a
    consumer sees when it walks the result. *)
Inductive tree :=
  | TUndefined
  | TNull
  | TString (s : string)
  | TObject (props : list (string * tree))
  | TArray (items : list tree).

#[local] Set Elimination Schemes.

(** Follows references to depth [fuel]; [None] when the fuel runs out or a
    reference dangles. *)
Fixpoint snapshot (fuel : nat) (h : gmap loc cell) (v : val) : option tree :=
  match fuel with
  | 0 => None
  | S fuel' =>
      match v with
      | VUndefined => Some TUndefined
      | VNull => Some TNull
      | VString s => Some (TString s)
      | VRef l =>
          match h !! l with
          | Some (Object props) =>
              TObject <$> mapM (λ kv, pair kv.1 <$> snapshot fuel' h kv.2) props
          | Some (Array items) =>
              TArray <$> mapM (snapshot fuel' h) items
          | None => None
          end
      end
  end.

(** The addresses a walk to depth [fuel] visits. *)
Fixpoint reach (fuel : nat) (h : gmap loc cell) (v : val) : list loc :=
  match fuel with
  | 0 => []
  | S fuel' =>
      match v with
      | VRef l =>
          l :: match h !! l with
               | Some (Object props) => props ≫= (λ kv, reach fuel' h kv.2)
               | Some (Array items) => items ≫= reach fuel' h
               | None => []
               end
      | _ => []
      end
  end.

(** The result of a call as its consumer reads it. *)
Definition returned (fuel : nat) (o : outcome val) : option tree :=
  match o with
  | Normal v w => snapshot fuel (heap w) v
  | Thrown _ _ => None
  end.

(** Property access [t.k], [None] when [t] has no property [k]. *)
Fixpoint lookup_prop {A} (k : string) (props : list (string * A)) : option A :=
  match props with
  | [] => None
  | (k', a) :: props' => if decide (k' = k) then Some a else lookup_prop k props'
  end.

Definition get (k : string) (t : tree) : option tree :=
  match t with
  | TObject props => lookup_prop k props
  | _ => None
  end.

(** [Object.keys(t)] *)
Definition keys (t : tree) : list string :=
  match t with
  | TObject props => props.*1
  | _ => []
  end.

(** The elements of an array, [None] for anything else. *)
Definition elements_of (t : tree) : option (list tree) :=
  match t with
  | TArray items => Some items
  | _ => None
  end.

(** The step list of a result, [t.run]. *)
Definition steps_of (t : tree) : option (list tree) :=
  get "run" t ≫= elements_of.

(** [s.method], [s.params], [s.params.message] and [s.params.path] of a
    step [s]. *)
Definition step_method (s : tree) : option tree := get "method" s.
Definition step_params (s : tree) : option tree := get "params" s.
Definition step_message (s : tree) : option tree := step_params s ≫= get "message".
Definition step_path (s : tree) : option tree := step_params s ≫= get "path".

Definition empty_world : world := {| heap := ∅; events := [] |}.

(** The structure of the literal of [update.js], lines 3 to 31. *)
Definition update_config : tree :=
  TObject [("run", TArray
    [ TObject [("method", TString "shell.run");
               ("params", TObject [("message", TString "git pull")])];
      TObject [("method", TString "shell.run");
               ("params", TObject [("message", TString "git pull --tags");
                                   ("path", TString "facefusion")])];
      TObject [("method", TString "shell.run");
               ("params", TObject [("message", TString "git checkout 2.5.3");
                                   ("path", TString "facefusion")])] ])].

(** ** The cells of a result *)

(** The addresses of the eight cells of one result: the [config] object,
    its [run] array, the three steps and the [params] of each. *)
Record cells := Cells {
  config_at : loc;
  run_at : loc;
  step0_at : loc; params0_at : loc;
  step1_at : loc; params1_at : loc;
  step2_at : loc; params2_at : loc
}.

(** In the order a walk from the result meets them. *)
Definition cells_list (k : cells) : list loc :=
  [ config_at k; run_at k;
    step0_at k; params0_at k;
    step1_at k; params1_at k;
    step2_at k; params2_at k ].

(** The heap [h] holds a result at the addresses [k]. *)
Record holds (h : gmap loc cell) (k : cells) : Prop := Holds {
  holds_params0 :
    h !! params0_at k = Some (Object [("message", VString "git pull")]);
  holds_step0 :
    h !! step0_at k =
    Some (Object [("method", VString "shell.run"); ("params", VRef (params0_at k))]);
  holds_params1 :
    h !! params1_at k =
    Some (Object [("message", VString "git pull --tags");
                  ("path", VString "facefusion")]);
  holds_step1 :
    h !! step1_at k =
    Some (Object [("method", VString "shell.run"); ("params", VRef (params1_at k))]);
  holds_params2 :
    h !! params2_at k =
    Some (Object [("message", VString "git checkout 2.5.3");
                  ("path", VString "facefusion")]);
  holds_step2 :
    h !! step2_at k =
    Some (Object [("method", VString "shell.run"); ("params", VRef (params2_at k))]);
  holds_run :
    h !! run_at k =
    Some (Array [VRef (step0_at k); VRef (step1_at k); VRef (step2_at k)]);
  holds_config : h !! config_at k = Some (Object [("run", VRef (run_at k))])
}.

(** What a call that starts in [w] and ends in [w'] does to the world:
    it records no event, keeps every cell, and adds the cells [k], all at
    addresses that were free. *)
Record layout (w w' : world) (k : cells) : Prop := Layout {
  layout_events : events w' = events w;
  layout_frame : heap w ⊆ heap w';
  layout_dom : dom (heap w') = list_to_set (cells_list k) ∪ dom (heap w);
  layout_fresh : Forall (λ l, heap w !! l = None) (cells_list k);
  layout_NoDup : NoDup (cells_list k);
  layout_holds : holds (heap w') k
}.
Arguments layout_frame {w w' k} _.
Arguments layout_NoDup {w w' k} _.
Arguments layout_holds {w w' k} _.

(** ** First runs *)

(** A first run, in a world with nothing in it. *)
Example module_exports_empty :
  returned 5 (module_exports [] empty_world) = Some update_config.
Proof. vm_compute. reflexivity. Qed.

Example module_exports_empty_cells :
  module_exports [] empty_world =
  Normal (VRef 8%positive)
    {| heap := list_to_map
         [ (1%positive, Object [("message", VString "git pull")]);
           (2%positive, Object [("method", VString "shell.run"); ("params", VRef 1%positive)]);
           (3%positive, Object [("message", VString "git pull --tags");
                                ("path", VString "facefusion")]);
           (4%positive, Object [("method", VString "shell.run"); ("params", VRef 3%positive)]);
           (5%positive, Object [("message", VString "git checkout 2.5.3");
                                ("path", VString "facefusion")]);
           (6%positive, Object [("method", VString "shell.run"); ("params", VRef 5%positive)]);
           (7%positive, Array [VRef 2%positive; VRef 4%positive; VRef 6%positive]);
           (8%positive, Object [("run", VRef 7%positive)]) ];
       events := [] |}.
Proof. vm_compute. reflexivity. Qed.

(** ** Reasoning about the runtime *)

Lemma alloc_spec c w :
  ∃ l, heap w !! l = None ∧
       alloc c w = Normal l {| heap := <[l := c]> (heap w); events := events w |}.
Proof.
  exists (fresh (dom (heap w))). split; [|done].
  apply not_elem_of_dom, is_fresh.
Qed.

Ltac step_alloc l H :=
  match goal with
  | |- context [alloc ?c ?w] =>
      destruct (alloc_spec c w) as (l & H & ->); cbn -[alloc] in H |- *;
      rewrite ?decide_False in H |- * by discriminate
  end.

Ltac split_fresh :=
  repeat match goal with
  | H : <[_ := _]> _ !! _ = None |- _ => apply lookup_insert_None in H as [H ?]
  end.

Lemma module_exports_layout args w :
  ∃ w' k, module_exports args w = Normal (VRef (config_at k)) w' ∧ layout w w' k.
Proof.
  cbv [module_exports object_literal array_literal string_literal
       eval_props eval_items mbind mret JS_bind JS_ret].
  cbn -[alloc].
  step_alloc p0 Hp0. step_alloc s0 Hs0.
  step_alloc p1 Hp1. step_alloc s1 Hs1.
  step_alloc p2 Hp2. step_alloc s2 Hs2.
  step_alloc r Hr. step_alloc c Hc.
  split_fresh.
  eexists _, (Cells c r s0 p0 s1 p1 s2 p2). split; [reflexivity|].
  split; unfold cells_list;
    cbn [heap events config_at run_at step0_at params0_at
         step1_at params1_at step2_at params2_at].
  - done.
  - repeat (etrans; [|by apply insert_subseteq; simplify_map_eq]). done.
  - rewrite !dom_insert_L. set_unfold. intros l. tauto.
  - repeat constructor; done.
  - repeat (apply NoDup_cons_2;
      [repeat (apply not_elem_of_cons; split; [congruence|]); apply not_elem_of_nil|]).
    apply NoDup_nil_2.
  - split; cbn; by simplify_map_eq.
Qed.


(** Walks a result: unfolds one level of [snapshot] or [reach], then reads
    the cell from the hypotheses. *)
Ltac walk :=
  repeat (cbn [snapshot reach mapM fmap option_fmap option_map mbind option_bind
               list_bind mret option_ret fst snd app Nat.add];
          try match goal with
              | H : ?h !! ?l = Some _ |- context [?h !! ?l] => rewrite H
              end).

(** Reading a result needs fuel 5: the strings sit four references deep. *)
Lemma holds_snapshot h k n :
  holds h k →
  snapshot n h (VRef (config_at k)) =
  if decide (5 ≤ n)%nat then Some update_config else None.
Proof.
  intros [].
  do 5 (destruct n as [|n]; [by walk|]).
  rewrite decide_True by lia. by walk.
Qed.

Lemma holds_reach h k n :
  holds h k → reach (4 + n) h (VRef (config_at k)) = cells_list k.
Proof.
  intros []. by destruct n; walk.
Qed.




(** A value that can be read in a heap reads the same in any larger heap. *)
Lemma snapshot_weaken h h' n v t :
  h ⊆ h' → snapshot n h v = Some t → snapshot n h' v = Some t.
Proof.
  intros Hsub. revert v t.
  induction n as [|n IH]; intros v t; cbn [snapshot]; [done|].
  destruct v as [| | |l]; try done.
  destruct (h !! l) as [[props|items]|] eqn:Hl; [| |done].
  all: rewrite (lookup_weaken _ _ _ _ Hl Hsub).
  all: intros (ts & Hts & ->)%fmap_Some; apply fmap_Some; exists ts.
  all: split; [|done].
  all: apply mapM_Some; apply mapM_Some in Hts.
  all: eapply Forall2_impl; [exact Hts|]; cbn beta.
  - intros [k u] [k' t'] (t'' & Ht'' & ->)%fmap_Some.
    apply fmap_Some. exists t''. eauto.
  - eauto.
Qed.

(** What every call returns, read back. *)
Lemma module_exports_returned args w n :
  returned (5 + n) (module_exports args w) = Some update_config.
Proof.
  destruct (module_exports_layout args w) as (w' & k & -> & Hlay).
  cbn [returned]. rewrite (holds_snapshot _ _ _ (layout_holds Hlay)).
  by rewrite decide_True by lia.
Qed.


(** ** Properties of the exported function *)

(** C1. Every call returns a step list of exactly three steps, in this
    order: the first has message [git pull] and no path, the second has
    message [git pull --tags] and path [facefusion], the third has message
    [git checkout 2.5.3] and path [facefusion]; the three steps are the
    three literals of the source, character for character. *)
Theorem module_exports_steps (args : list val) (w : world) (n : nat) :
  ∃ s0 s1 s2,
    returned (5 + n) (module_exports args w) ≫= steps_of = Some [s0; s1; s2] ∧
    s0 = TObject [("method", TString "shell.run");
                  ("params", TObject [("message", TString "git pull")])] ∧
    s1 = TObject [("method", TString "shell.run");
                  ("params", TObject [("message", TString "git pull --tags");
                                      ("path", TString "facefusion")])] ∧
    s2 = TObject [("method", TString "shell.run");
                  ("params", TObject [("message", TString "git checkout 2.5.3");
                                      ("path", TString "facefusion")])] ∧
    step_message s0 = Some (TString "git pull") ∧
    step_path s0 = None ∧
    step_message s1 = Some (TString "git pull --tags") ∧
    step_path s1 = Some (TString "facefusion") ∧
    step_message s2 = Some (TString "git checkout 2.5.3") ∧
    step_path s2 = Some (TString "facefusion").
Proof.
  rewrite module_exports_returned.
  eexists _, _, _. split; [reflexivity|].
  repeat split; reflexivity.
Qed.

(** C2. The function is deterministic: whatever the arguments and the
    worlds two calls run in, both return, and the two results have the same
    structure: same length, same order, same field values. *)
Theorem module_exports_deterministic
    (args1 args2 : list val) (w1 w2 : world) (n1 n2 : nat) :
  is_Some (returned (5 + n1) (module_exports args1 w1)) ∧
  returned (5 + n1) (module_exports args1 w1) =
  returned (5 + n2) (module_exports args2 w2).
Proof.
  rewrite !module_exports_returned. eauto.
Qed.

(** C3. The function is total: every call returns normally, none throws. *)
Theorem module_exports_total (args : list val) (w : world) :
  (∃ v w', module_exports args w = Normal v w') ∧
  (∀ exn w', module_exports args w ≠ Thrown exn w').
Proof.
  destruct (module_exports_layout args w) as (w' & k & -> & _).
  split; [by eauto|]. intros exn w''. discriminate.
Qed.

(** C4. Shape: every call returns exactly three steps, so the list is not
    empty; the method of every step is the shell-execution identifier
    [shell.run], and the message of every step is a string that is not
    empty. *)
Theorem module_exports_shape (args : list val) (w : world) (n : nat) :
  ∃ steps,
    returned (5 + n) (module_exports args w) ≫= steps_of = Some steps ∧
    length steps = 3 ∧
    steps ≠ [] ∧
    Forall (λ s, step_method s = Some (TString "shell.run")) steps ∧
    Forall (λ s, ∃ m, step_message s = Some (TString m) ∧ m ≠ "") steps.
Proof.
  rewrite module_exports_returned.
  eexists. split; [reflexivity|].
  split; [reflexivity|]. split; [discriminate|].
  split; repeat constructor; eexists; split; try reflexivity; discriminate.
Qed.

(** C5. The function is pure: a call records no event (it spawns no
    process and touches neither files nor the network), changes and removes
    no cell that existed before it, and adds to the heap only the cells of
    the value it returns; every value that could be read before the call
    reads the same after it. *)
Theorem module_exports_pure (args : list val) (w : world) :
  ∃ v w',
    module_exports args w = Normal v w' ∧
    events w' = events w ∧
    heap w ⊆ heap w' ∧
    (∀ l, l ∈ dom (heap w') → l ∈ dom (heap w) ∨ l ∈ reach 4 (heap w') v) ∧
    (∀ u n t, snapshot n (heap w) u = Some t → snapshot n (heap w') u = Some t).
Proof.
  destruct (module_exports_layout args w) as (w' & k & Hrun & Hlay).
  exists (VRef (config_at k)), w'. split; [done|].
  pose proof (holds_reach _ _ 0 (layout_holds Hlay)) as Hreach.
  destruct Hlay as [Hev Hsub Hdom _ _ _].
  repeat split; [done..| |].
  - intros l. cbn [Nat.add] in Hreach. rewrite Hdom, Hreach.
    set_unfold. tauto.
  - intros u n t. by apply snapshot_weaken.
Qed.


(** C7. The function takes no input: it declares no parameter, and what it
    returns is the same whatever arguments a caller passes and whatever the
    world holds: it is what a call without arguments returns in a world
    with nothing in it. *)
Theorem module_exports_no_input (args : list val) (w : world) (n : nat) :
  returned (5 + n) (module_exports args w) = Some update_config ∧
  returned (5 + n) (module_exports args w) =
  returned 5 (module_exports [] empty_world).
Proof.
  by rewrite module_exports_returned, module_exports_empty.
Qed.

(** C8. The value returned is not the step list itself: it is an object
    whose only property is [run], and [run] holds the ordered step list,
    the array of the three step descriptors of the source in their order.
    In the heap the result is a reference to an object cell, whose [run]
    refers to another cell, the array; a consumer reaches the steps by
    reading [run]. *)
Theorem module_exports_record (args : list val) (w : world) (n : nat) :
  ∃ c r w' t run steps,
    module_exports args w = Normal (VRef c) w' ∧
    heap w' !! c = Some (Object [("run", VRef r)]) ∧
    (∃ i0 i1 i2, heap w' !! r = Some (Array [VRef i0; VRef i1; VRef i2])) ∧
    c ≠ r ∧
    returned (5 + n) (module_exports args w) = Some t ∧
    elements_of t = None ∧
    keys t = ["run"] ∧
    get "run" t = Some run ∧
    elements_of run = Some steps ∧
    steps_of t = Some steps ∧
    length steps = 3 ∧
    steps =
      [ TObject [("method", TString "shell.run");
                 ("params", TObject [("message", TString "git pull")])];
        TObject [("method", TString "shell.run");
                 ("params", TObject [("message", TString "git pull --tags");
                                     ("path", TString "facefusion")])];
        TObject [("method", TString "shell.run");
                 ("params", TObject [("message", TString "git checkout 2.5.3");
                                     ("path", TString "facefusion")])] ].
Proof.
  destruct (module_exports_layout args w) as (w' & k & Hrun & Hlay).
  pose proof (layout_holds Hlay) as H.
  exists (config_at k), (run_at k), w'. eexists _, _, _.
  split; [exact Hrun|].
  split; [apply (holds_config _ _ H)|].
  split; [eexists _, _, _; apply (holds_run _ _ H)|].
  split.
  { pose proof (layout_NoDup Hlay) as Hnd. unfold cells_list in Hnd.
    apply NoDup_cons_1_1 in Hnd. intros Heq. apply Hnd. rewrite Heq. left. }
  split.
  { rewrite Hrun. cbn [returned]. rewrite (holds_snapshot _ _ _ H).
    by rewrite decide_True by lia. }
  repeat split; reflexivity.
Qed.

(** C9. The method of every step of the returned list is the string
    [shell.run]. *)
Theorem module_exports_method (args : list val) (w : world) (n : nat) :
  ∃ steps,
    returned (5 + n) (module_exports args w) ≫= steps_of = Some steps ∧
    steps ≠ [] ∧
    ∀ s, s ∈ steps → step_method s = Some (TString "shell.run").
Proof.
  rewrite module_exports_returned.
  eexists. split; [reflexivity|]. split; [discriminate|].
  intros s Hs. set_unfold. by intuition subst.
Qed.

(** C10. The parameters of the first step have the one key [message] and
    no key [path] at all; the parameters of the second and of the third
    step have the two keys [message] and [path]; no step has another
    parameter. *)
Theorem module_exports_param_keys (args : list val) (w : world) (n : nat) :
  ∃ s0 s1 s2,
    returned (5 + n) (module_exports args w) ≫= steps_of = Some [s0; s1; s2] ∧
    keys <$> step_params s0 = Some ["message"] ∧
    step_path s0 = None ∧
    keys <$> step_params s1 = Some ["message"; "path"] ∧
    keys <$> step_params s2 = Some ["message"; "path"].
Proof.
  rewrite module_exports_returned.
  eexists _, _, _. split; [reflexivity|].
  repeat split; reflexivity.
Qed.
